(** * MobiParse: a shallow embedding of src/src/MobiParse.cpp

    Conventions of the embedding.
    - Bytes are [Z] values in [0, 256); fixed-width C integers are [Z] with
      their wrap-around written out ([size_t] is 64 bits, [DWORD]/[uint32_t]
      are 32 bits, [int16_t]/[int32_t] are two's complement).
    - The host is little-endian, as the code assumes ("our native format").
    - [assert] is modelled as in a release build ([NDEBUG]): it has no effect.
    - Allocation ([malloc], [memdup], [SAZA]) is assumed to succeed.
    - An access outside the memory a function was handed (a read past the
      end of a record or of the offset table, a write past an output
      buffer, a read of a byte never written) is not given a value: the
      computation ends in [UB]. *)

From Stdlib Require Import String Ascii.
From Stdlib Require Import ZArith List Bool Lia.
Import ListNotations.
Open Scope Z_scope.

Definition bytes_of (s : string) : list Z :=
  map (fun a => Z.of_nat (nat_of_ascii a)) (list_ascii_of_string s).

(** ** Outcomes *)

Inductive res (E A : Type) : Type :=
| Ok (a : A)
| Err (e : E)
| UB.
Arguments Ok {E A} a.
Arguments Err {E A} e.
Arguments UB {E A}.

Definition bind {E A B} (m : res E A) (k : A -> res E B) : res E B :=
  match m with
  | Ok a => k a
  | Err e => Err e
  | UB => UB
  end.

Notation "x <- m ;; k" := (bind m (fun x => k))
  (at level 61, m at next level, right associativity).

(** ** Fixed-width helpers *)

Definition u32 (x : Z) : Z := x mod 2 ^ 32.
Definition size_t (x : Z) : Z := x mod 2 ^ 64.
Definition to_i16 (x : Z) : Z := let y := x mod 2 ^ 16 in
  if y >=? 2 ^ 15 then y - 2 ^ 16 else y.
Definition to_i32 (x : Z) : Z := let y := x mod 2 ^ 32 in
  if y >=? 2 ^ 31 then y - 2 ^ 32 else y.

(** Big-endian loads from a byte list at a (checked) position. *)
Definition byte_at (l : list Z) (i : Z) : Z := nth (Z.to_nat i) l 0.
Definition be16 (l : list Z) (i : Z) : Z :=
  byte_at l i * 2 ^ 8 + byte_at l (i + 1).
Definition be32 (l : list Z) (i : Z) : Z :=
  byte_at l i * 2 ^ 24 + byte_at l (i + 1) * 2 ^ 16
  + byte_at l (i + 2) * 2 ^ 8 + byte_at l (i + 3).

Definition len (l : list Z) : Z := Z.of_nat (length l).

(** ** PalmdocUncompress (MobiParse.cpp lines 140-194)

    [dst] is the output written so far (from [dstOrig]); the C function
    returns [dst - dstOrig], i.e. the length of the final list, or [-1],
    modelled as [Err tt].  The trailing zero byte written "to make
    inspecting in the debugger easier" lies within the buffer and is not
    part of the returned length, so it is not modelled.

    The back-reference copy loop (lines 181-184): [dstBack] moves in step
    with [dst], so each byte is read [back] positions before the byte being
    written. *)

Fixpoint back_copy (n back : nat) (dst : list Z) (dstLen : Z)
  : res unit (list Z) :=
  match n with
  | O => Ok dst
  | S n' =>
      if dstLen <=? len dst then UB            (* *dst++ past dstEnd *)
      else back_copy n' back (dst ++ [nth (length dst - back) dst 0]) dstLen
  end.

Fixpoint pd_loop (fuel : nat) (src dst : list Z) (dstLen : Z)
  : res unit (list Z) :=
  match fuel with
  | O => Ok dst
  | S fuel' =>
  match src with
  | [] => Ok dst                                (* src == srcEnd *)
  | c :: src' =>
      let dstLeft := dstLen - len dst in
      if dstLeft =? 0 then Err tt else
      if (1 <=? c) && (c <=? 8) then
        if dstLeft <? c then Err tt else
        if len src' <? c then UB                (* *src++ past srcEnd *)
        else pd_loop fuel' (skipn (Z.to_nat c) src')
               (dst ++ firstn (Z.to_nat c) src') dstLen
      else if c <? 128 then
        pd_loop fuel' src' (dst ++ [c]) dstLen
      else if 192 <=? c then
        if dstLeft <? 2 then Err tt
        else pd_loop fuel' src' (dst ++ [32; Z.lxor c 128]) dstLen
      else
        match src' with
        | [] => Ok dst                          (* if (src < srcEnd) fails *)
        | b :: src'' =>
            let v := Z.lor (Z.shiftl c 8) b in
            let back := Z.land (Z.shiftr v 3) 2047 in
            let n := Z.land v 7 + 3 in
            (* dst - back before dstOrig, or dst itself (a byte not yet
               written), is read by the copy *)
            if (len dst <? back) || (back =? 0) then UB
            else
              match back_copy (Z.to_nat n) (Z.to_nat back) dst dstLen with
              | Ok dst' => pd_loop fuel' src'' dst' dstLen
              | Err e => Err e
              | UB => UB
              end
        end
  end
  end.

(** Every step consumes at least one input byte, so [length src] steps
    suffice. *)
Definition PalmdocUncompress (src : list Z) (dstLen : Z) : res unit (list Z) :=
  pd_loop (length src) src [] dstLen.

(** ** The byte source and the PDB envelope *)

(** The file behind [fileHandle]: [fsize] is what [file::GetSize] reports
    and [fbyte p] the byte at position [p], for [0 <= p < fsize]. *)
Record ByteSource := mkSource { fsize : Z; fbyte : Z -> Z }.

(** [ReadFile] of [n] bytes at position [pos]: the bytes that exist, so
    [bytesRead = min n (fsize - pos)]. *)
Definition read_at (f : ByteSource) (pos n : Z) : list Z :=
  map (fun k => fbyte f (pos + Z.of_nat k))
      (seq 0 (Z.to_nat (Z.min n (fsize f - pos)))).

(** Modelled from the spec: the [PdbHeader] and [PdbRecordHeader] layouts
    of MobiParse.h, which is not part of the sources: a fixed-size PDB
    header holding the 8-byte type/creator tag at a fixed offset and the
    big-endian 16-bit record count, followed by the table of records, one
    big-endian 32-bit offset per record.  The offsets are those of the PDB
    format the source cites (78-byte header, tag at 60, count at 76,
    8-byte record entries with the offset first); [numRecords] and
    [offset] are [int16_t] and [int32_t], the types [SwapI16] and
    [SwapI32] are applied to. *)
Definition kPdbHeaderLen : Z := 78.
Definition kPdbRecordHeaderLen : Z := 8.
Definition pdb_type_off : Z := 60.
Definition pdb_numRecords_off : Z := 76.

Definition MOBI_TYPE_CREATOR : list Z := bytes_of "BOOKMOBI".
Definition PALMDOC_TYPE_CREATOR : list Z := bytes_of "TEXtREAd".

Definition list_Z_eqb (a b : list Z) : bool :=
  (length a =? length b)%nat && forallb (fun p => fst p =? snd p) (combine a b).

(** The failure sites of [ParseHeader] (each [return false]). *)
Inductive ph_err : Type :=
| PhReadPdbHeader | PhUnknownType | PhNumRecords | PhReadRecHeaders
| PhInvalidOffset | PhReadRecord0 | PhCompression | PhEncryption
| PhMobiHdrShort | PhMobiId | PhMobiTooBig | PhReadHuffRec | PhHuffData
| PhReadCdicRec | PhCdicData.

Record Envelope := mkEnvelope {
  env_isMobi : bool;
  env_numRecords : Z;
  env_recHeaders : list Z  (* [numRecords + 1] offsets, host order *)
}.

Definition rec_offsets (tbl : list Z) (n : Z) : list Z :=
  map (fun i => to_i32 (be32 tbl (kPdbRecordHeaderLen * Z.of_nat i)))
      (seq 0 (Z.to_nat n)).

(** [for (i = 0; i < numRecords; i++) if (recHeaders[i+1].offset <
    recHeaders[i].offset) return false;] *)
Definition offsets_ok (t : list Z) (n : Z) : bool :=
  forallb (fun i => negb (nth (S i) t 0 <? nth i t 0)) (seq 0 (Z.to_nat n)).

(** The first part of [MobiParse::ParseHeader] (lines 343-385): the PDB
    header, the record table and its sentinel. *)
Definition pdb_open (f : ByteSource) : res ph_err Envelope :=
  let hdr := read_at f 0 kPdbHeaderLen in
  if negb (len hdr =? kPdbHeaderLen) then Err PhReadPdbHeader else
  let ty := firstn 8 (skipn (Z.to_nat pdb_type_off) hdr) in
  match (if list_Z_eqb ty MOBI_TYPE_CREATOR then Some true
         else if list_Z_eqb ty PALMDOC_TYPE_CREATOR then Some false
         else None) with
  | None => Err PhUnknownType
  | Some isMobi =>
      let n := to_i16 (be16 hdr pdb_numRecords_off) in
      if n <? 1 then Err PhNumRecords else
      let toRead := u32 (kPdbRecordHeaderLen * n) in
      let tbl := read_at f kPdbHeaderLen toRead in
      if negb (len tbl =? toRead) then Err PhReadRecHeaders else
      let t := rec_offsets tbl n ++ [to_i32 (fsize f)] in
      if negb (offsets_ok t n) then Err PhInvalidOffset
      else Ok (mkEnvelope isMobi n t)
  end.

(** ** GetRecordSize and ReadRecord (lines 493-529) *)

Inductive rr_err : Type := RrSeek | RrShort.

(** [recHeaders[i]]: an index outside the allocated table is a read past
    the [SAZA] allocation. *)
Definition tbl_get (t : list Z) (i : Z) : res rr_err Z :=
  if (0 <=? i) && (i <? len t) then Ok (nth (Z.to_nat i) t 0) else UB.

(** [recHeaders[recNo + 1].offset - recHeaders[recNo].offset], computed in
    [int] (a signed overflow is undefined) and converted to [size_t]. *)
Definition GetRecordSize (t : list Z) (recNo : Z) : res rr_err Z :=
  hi <- tbl_get t (size_t (recNo + 1)) ;;
  lo <- tbl_get t recNo ;;
  let d := hi - lo in
  if (d <? - 2 ^ 31) || (2 ^ 31 - 1 <? d) then UB else Ok (size_t d).

(** [SetFilePointer] receives the [size_t] offset as a [LONG] and fails on
    a negative position; [ReadFile] fails the call when fewer than
    [toRead] bytes are read. *)
Definition ReadRecord (f : ByteSource) (t : list Z) (recNo : Z)
  : res rr_err (list Z) :=
  o <- tbl_get t recNo ;;
  let off := size_t o in
  sz <- GetRecordSize t recNo ;;
  let toRead := u32 sz in
  let pos := to_i32 off in
  if pos <? 0 then Err RrSeek else
  let buf := read_at f pos toRead in
  if negb (len buf =? toRead) then Err RrShort else Ok buf.

(** ** ExtraDataSize (lines 532-557) *)

Definition rec_byte {E} (r : list Z) (i : Z) : res E Z :=
  if (0 <=? i) && (i <? len r) then Ok (byte_at r i) else UB.

(** The inner loop over [j = 0..3]: the base-128 value of the last four
    bytes before [newLen]. *)
Fixpoint trailer_value (js : list Z) (r : list Z) (newLen n : Z) : res unit Z :=
  match js with
  | [] => Ok n
  | j :: js' =>
      v <- rec_byte r (size_t (newLen - 4 + j)) ;;
      let n1 := if Z.land v 128 =? 0 then n else 0 in
      trailer_value js' r newLen (u32 (Z.lor (Z.shiftl n1 7) (Z.land v 127)))
  end.

Fixpoint strip_trailers (k : nat) (r : list Z) (newLen : Z) : res unit Z :=
  match k with
  | O => Ok newLen
  | S k' =>
      n <- trailer_value [0; 1; 2; 3] r newLen 0 ;;
      strip_trailers k' r (size_t (newLen - n))
  end.

Definition ExtraDataSize (r : list Z) (recLen trailersCount : Z)
  (multibyte : bool) : res unit Z :=
  newLen <- strip_trailers (Z.to_nat trailersCount) r recLen ;;
  newLen' <-
    (if multibyte && (0 <? newLen) then
       v <- rec_byte r (newLen - 1) ;;
       Ok (size_t (newLen - (Z.land v 3 + 1)))
     else Ok newLen) ;;
  Ok (size_t (recLen - newLen')).

(** ** HuffDicDecompressor (lines 196-304) *)

Definition kHuffHeaderLen : Z := 24.

Record Dict1Entry := mkDict1Entry { codeLen : Z; term : Z; maxCode : Z }.

Record HuffDic := mkHuffDic {
  huffmanData : list Z;
  dict1 : list Dict1Entry;   (* the entries written, in order *)
  baseTableOffset : Z;
  baseTableLen : Z
}.

(** [UnpackCacheData]: the 256 entries of [cache], here the [uint32_t]s at
    [data + off].  On a [return false] the entries written so far are kept
    (entry [i] has its [codeLen], and possibly [term], already set). *)
Fixpoint unpack_loop (k : nat) (data : list Z) (off i : Z)
  (acc : list Dict1Entry) : res unit (bool * list Dict1Entry) :=
  match k with
  | O => Ok (true, acc)
  | S k' =>
      if (off + 4 * i <? 0) || (len data <? off + 4 * i + 4) then UB else
      let v := be32 data (off + 4 * i) in      (* cache[i], then SwapU32 *)
      let cl := Z.land v 31 in
      if cl =? 0 then Ok (false, acc) else
      let tm := Z.land v 128 in
      if (cl <=? 8) && (tm =? 0) then Ok (false, acc) else
      let mc := u32 (Z.shiftl (Z.shiftr v 8 + 1) (32 - cl) - 1) in
      unpack_loop k' data off (i + 1) (acc ++ [mkDict1Entry cl tm mc])
  end.

Definition UnpackCacheData (data : list Z) (off : Z)
  : res unit (bool * list Dict1Entry) :=
  unpack_loop 256 data off 0 [].

(** [SwapU32] in place: the four bytes at [i] reversed (a big-endian value
    stored back in host order). *)
Definition swap4_at (l : list Z) (i : nat) : list Z :=
  firstn i l ++ rev (firstn 4 (skipn i l)) ++ skipn (i + 4) l.

Definition SetHuffData (huffData : list Z) : res unit HuffDic :=
  let huffDataLen := len huffData in
  if huffDataLen <? kHuffHeaderLen then Err tt else
  let hdrLen := be32 huffData 4 in
  let cacheOffset := be32 huffData 8 in
  let baseTableOff := be32 huffData 12 in
  (* the three SwapU32 calls rewrite the caller's buffer *)
  let swapped := swap4_at (swap4_at (swap4_at huffData 4) 8) 12 in
  if negb (list_Z_eqb (firstn 4 huffData) (bytes_of "HUFF")) then Err tt else
  if negb (hdrLen =? kHuffHeaderLen) then Err tt else
  if negb (baseTableOff =? u32 (cacheOffset + 1024)) then Err tt else
  if huffDataLen <=? baseTableOff then Err tt else
  let hd := swapped in                                    (* memdup *)
  (* UnpackCacheData(cache): its result is not looked at *)
  r <- UnpackCacheData hd cacheOffset ;;
  Ok (mkHuffDic hd (snd r) baseTableOff (huffDataLen - baseTableOff)).

Definition AddCdicData (d : HuffDic) (cdicData : list Z) : bool := false.

(** ** The document state and the rest of ParseHeader (lines 387-491) *)

Definition COMPRESSION_NONE : Z := 1.
Definition COMPRESSION_PALM : Z := 2.
Definition COMPRESSION_HUFF : Z := 17480.
Definition ENCRYPTION_NONE : Z := 0.

Definition IsValidCompression (c : Z) : bool :=
  (c =? COMPRESSION_NONE) || (c =? COMPRESSION_PALM) || (c =? COMPRESSION_HUFF).

Record MobiParse := mkMobiParse {
  isMobi : bool;
  recHeaders : list Z;
  docRecCount : Z;
  compressionType : Z;
  docUncompressedSize : Z;
  multibyte : bool;
  trailersCount : Z;
  huffDic : option HuffDic;
  doc : list Z
}.

Definition kPalmDocHeaderLen : Z := 16.

(** Byte offsets inside [MobiHeader] (the struct of lines 68-112). *)
Definition mobi_hdrLen_off : Z := 4.
Definition mobi_huffmanFirstRec_off : Z := 96.
Definition mobi_huffmanRecCount_off : Z := 100.
Definition mobi_exhtFlags_end : Z := 116.
Definition mobi_extraDataFlags_off : Z := 226.

(** Lines 458-469: [while (flags > 1) { if (flags & 2) trailersCount++;
    flags >>= 1; }]; a [uint16_t] needs at most 16 rounds. *)
Fixpoint trailers_loop (fuel : nat) (flags cnt : Z) : Z :=
  match fuel with
  | O => cnt
  | S fuel' =>
      if 1 <? flags then
        trailers_loop fuel' (Z.shiftr flags 1)
          (if Z.land flags 2 =? 0 then cnt else cnt + 1)
      else cnt
  end.

(** [hasExtraFlags = (hdrLen >= 228)]; the flags are read and decoded only
    then, starting from [multibyte = false] and [trailersCount = 0].
    [mobiHdr] are the record bytes from the [MobiHeader] on. *)
Definition extra_data_shape (hdrLen : Z) (mobiHdr : list Z) : bool * Z :=
  if 228 <=? hdrLen then
    let flags := be16 mobiHdr mobi_extraDataFlags_off in
    (negb (Z.land flags 1 =? 0), trailers_loop 16 flags 0)
  else (false, 0).

Definition rr_to {E A} (e : E) (m : res rr_err A) : res E A :=
  match m with Ok a => Ok a | Err _ => Err e | UB => UB end.

(** [for (size_t i = 1; i < huffmanRecCount; i++)]: [k] rounds left. *)
Fixpoint cdic_loop (k : nat) (f : ByteSource) (t : list Z) (first i : Z)
  (d : HuffDic) : res ph_err HuffDic :=
  match k with
  | O => Ok d
  | S k' =>
      r <- rr_to PhReadCdicRec (ReadRecord f t (size_t (first + i))) ;;
      if AddCdicData d r then cdic_loop k' f t first (i + 1) d
      else Err PhCdicData
  end.

(** Lines 471-488, the huffman dictionary loading. *)
Definition huff_dic_load (f : ByteSource) (t : list Z) (first count : Z)
  : res ph_err HuffDic :=
  r <- rr_to PhReadHuffRec (ReadRecord f t first) ;;
  d <- match SetHuffData r with
       | Ok d => Ok d | Err _ => Err PhHuffData | UB => UB end ;;
  cdic_loop (Z.to_nat (count - 1)) f t first 1 d.

(** Lines 394-490, from record 0's bytes [rec0] ([firstRecData]). *)
Definition parse_record0 (f : ByteSource) (env : Envelope) (rec0 : list Z)
  : res ph_err MobiParse :=
  if len rec0 <? kPalmDocHeaderLen then UB else   (* header read past rec0 *)
  let recLeft := len rec0 - kPalmDocHeaderLen in
  let ct := to_i16 (be16 rec0 0) in
  let uds := to_i32 (be32 rec0 4) in
  let rc := to_i16 (be16 rec0 8) in
  if negb (IsValidCompression ct) then Err PhCompression else
  (* mobi.encrType is not swapped; zero either way *)
  if env_isMobi env && negb (be16 rec0 12 =? ENCRYPTION_NONE)
  then Err PhEncryption else
  let st0 := mkMobiParse (env_isMobi env) (env_recHeaders env) rc ct uds
               false 0 None [] in
  if recLeft =? 0 then Ok st0 else
  if recLeft <? 8 then Err PhMobiHdrShort else
  let mobiHdr := skipn (Z.to_nat kPalmDocHeaderLen) rec0 in
  if negb (list_Z_eqb (firstn 4 mobiHdr) (bytes_of "MOBI")) then Err PhMobiId else
  (* the SwapU32 calls rewrite the fields up to exhtFlags *)
  if recLeft <? mobi_exhtFlags_end then UB else
  let hdrLen := be32 mobiHdr mobi_hdrLen_off in
  if recLeft <? hdrLen then Err PhMobiTooBig else
  let shape := extra_data_shape hdrLen mobiHdr in
  let st1 := mkMobiParse (env_isMobi env) (env_recHeaders env) rc ct uds
               (fst shape) (snd shape) None [] in
  if ct =? COMPRESSION_HUFF then
    d <- huff_dic_load f (env_recHeaders env)
           (be32 mobiHdr mobi_huffmanFirstRec_off)
           (be32 mobiHdr mobi_huffmanRecCount_off) ;;
    Ok (mkMobiParse (env_isMobi env) (env_recHeaders env) rc ct uds
          (fst shape) (snd shape) (Some d) [])
  else Ok st1.

Definition ParseHeader (f : ByteSource) : res ph_err MobiParse :=
  env <- pdb_open f ;;
  rec0 <- rr_to PhReadRecord0 (ReadRecord f (env_recHeaders env) 0) ;;
  parse_record0 f env rec0.

(** ** LoadDocRecordIntoBuffer, LoadDocument, ParseFile (lines 561-624) *)

Definition kPalmBufLen : Z := 6000.   (* char buf[6000] *)

(** Appends record [recNo] to [strOut]; [Err tt] is [return false]. *)
Definition LoadDocRecordIntoBuffer (f : ByteSource) (st : MobiParse)
  (recNo : Z) (strOut : list Z) : res unit (list Z) :=
  r <- rr_to tt (ReadRecord f (recHeaders st) recNo) ;;
  extra <- ExtraDataSize r (len r) (trailersCount st) (multibyte st) ;;
  let recSize := size_t (len r - extra) in
  if compressionType st =? COMPRESSION_NONE then
    if len r <? recSize then UB                  (* Append reads past r *)
    else Ok (strOut ++ firstn (Z.to_nat recSize) r)
  else if compressionType st =? COMPRESSION_PALM then
    if len r <? recSize then UB
    else match PalmdocUncompress (firstn (Z.to_nat recSize) r) kPalmBufLen with
         | Ok out => Ok (strOut ++ out)
         | Err _ => Err tt
         | UB => UB
         end
  else if compressionType st =? COMPRESSION_HUFF then Err tt  (* TODO *)
  else Err tt.

(** [for (size_t i = 1; i <= docRecCount; i++)]: [k] rounds left. *)
Fixpoint load_records (k : nat) (f : ByteSource) (st : MobiParse) (i : Z)
  (d : list Z) : res unit (list Z) :=
  match k with
  | O => Ok d
  | S k' =>
      d' <- LoadDocRecordIntoBuffer f st i d ;;
      load_records k' f st (i + 1) d'
  end.

Definition with_doc (st : MobiParse) (d : list Z) : MobiParse :=
  mkMobiParse (isMobi st) (recHeaders st) (docRecCount st) (compressionType st)
    (docUncompressedSize st) (multibyte st) (trailersCount st) (huffDic st) d.

(** The final [assert(docUncompressedSize == doc.Size())] has no effect. *)
Definition LoadDocument (f : ByteSource) (st : MobiParse) : res unit MobiParse :=
  d <- load_records (Z.to_nat (size_t (docRecCount st))) f st 1 (doc st) ;;
  Ok (with_doc st d).

(** [MobiParse::ParseFile] once the file is open: [Err tt] is [NULL]. *)
Definition ParseFile (f : ByteSource) : res unit MobiParse :=
  match ParseHeader f with
  | Ok st => LoadDocument f st
  | Err _ => Err tt
  | UB => UB
  end.

(** ** Concrete inputs *)

Definition be16_bytes (x : Z) : list Z := [Z.shiftr x 8 mod 256; x mod 256].
Definition be32_bytes (x : Z) : list Z :=
  [Z.shiftr x 24 mod 256; Z.shiftr x 16 mod 256; Z.shiftr x 8 mod 256; x mod 256].

(** A source holding the bytes [l]. *)
Definition source_of (l : list Z) : ByteSource :=
  mkSource (len l) (fun p => nth (Z.to_nat p) l 0).

(** A PDB file: header with tag [ty], then the table and the records. *)
Definition pdb_file (ty : list Z) (records : list (list Z)) : list Z :=
  let n := Z.of_nat (length records) in
  let starts := fold_left (fun acc r => acc ++ [last acc 0 + len r])
                  records [kPdbHeaderLen + kPdbRecordHeaderLen * n] in
  repeat 0 60 ++ ty ++ repeat 0 8 ++ be16_bytes n
  ++ flat_map (fun o => be32_bytes o ++ [0; 0; 0; 0]) (firstn (length records) starts)
  ++ List.concat records.

(** A 16-byte PalmDoc header. *)
Definition palmdoc_header (compr uncompr nrec encr : Z) : list Z :=
  be16_bytes compr ++ [0; 0] ++ be32_bytes uncompr ++ be16_bytes nrec
  ++ be16_bytes 4096 ++ be16_bytes encr ++ [0; 0].

(** A PalmDoc text file: record 0 is a PalmDoc header (no compression,
    [uncompr] declared bytes, one text record), record 1 is [text]. *)
Definition plain_doc_file (uncompr : Z) (text : list Z) : list Z :=
  pdb_file PALMDOC_TYPE_CREATOR [palmdoc_header COMPRESSION_NONE uncompr 1 0; text].

(** A BOOKMOBI file with one text record [[97; 98]], compression [compr]
    and encryption field [encr]. *)
Definition mobi_doc_file (compr encr : Z) : list Z :=
  pdb_file MOBI_TYPE_CREATOR [palmdoc_header compr 2 1 encr; [97; 98]].

(** PalmDoc input that fills all but one byte of the 6000-byte buffer with
    literals, then a back-reference of distance 1 and length 3. *)
Definition pd_overflow_src : list Z := repeat 65 (Z.to_nat 5999) ++ [128; 8].

(** A HUFF record whose 256 cache entries are all zero (code length 0). *)
Definition huff_zero_cache : list Z :=
  bytes_of "HUFF" ++ be32_bytes 24 ++ be32_bytes 24 ++ be32_bytes 1048
  ++ repeat 0 8 ++ repeat 0 (Z.to_nat 1024) ++ [0].


(** The PDB header of a BOOKMOBI file with one record at offset
    [0x80000000], i.e. [-2^31] as an [int32_t]. *)
Definition big_pdb_prefix : list Z :=
  repeat 0 60 ++ MOBI_TYPE_CREATOR ++ repeat 0 8 ++ be16_bytes 1
  ++ be32_bytes (2 ^ 31) ++ [0; 0; 0; 0].

(** A source of exactly [2^31] bytes starting with [big_pdb_prefix]. *)
Definition big_source : ByteSource :=
  mkSource (2 ^ 31) (fun p => nth (Z.to_nat p) big_pdb_prefix 0).

(** The number of set bits of a 16-bit [flags] at positions 1 to 15. *)
Definition trailer_bits (flags : Z) : Z :=
  Z.of_nat (length (filter (fun k => Z.testbit flags (Z.of_nat k)) (seq 1 15))).

(** The number of set bits of [x] at positions [s] to [s + m - 1]. *)
Definition count_from (s m : nat) (x : Z) : nat :=
  length (filter (fun k => Z.testbit x (Z.of_nat k)) (seq s m)).

Definition is_byte (x : Z) : Prop := 0 <= x < 256.

Definition bytes_ok (l : list Z) : bool :=
  forallb (fun x => (0 <=? x) && (x <? 256)) l.

(** A BOOKMOBI record 0 with a 228-byte extended header and
    flags [0b111] (multibyte, two trailers). *)
Definition mobi_rec0_flags (flags : Z) : list Z :=
  palmdoc_header COMPRESSION_NONE 2 1 0 ++ bytes_of "MOBI" ++ be32_bytes 228
  ++ repeat 0 (Z.to_nat 218) ++ be16_bytes flags.


(** ** Inputs built for the further properties *)

(** PalmDoc input made only of raw runs: each chunk of 1 to 8 bytes is
    preceded by its length, the opcode of lines 154-161. *)
Definition raw_encode (chunks : list (list Z)) : list Z :=
  flat_map (fun ch => len ch :: ch) chunks.

Definition chunk_ok (ch : list Z) : bool := (1 <=? len ch) && (len ch <=? 8).

(** A byte the decoder copies as itself (lines 162-164): below 128 and not
    a raw-run count 1..8. *)
Definition is_literal (c : Z) : bool := (c =? 0) || ((9 <=? c) && (c <? 128)).

(** A trailing entry whose last byte is [0x80 | size], [size] counting
    that byte, below 128. *)
Definition size_trailer_ok (t : list Z) : bool :=
  (1 <=? len t) && (len t <? 128) && (last t 0 =? 128 + len t).

(** A multibyte trailer of 1 to 4 bytes whose last byte's low two bits
    give its size minus one. *)
Definition mb_trailer_ok (mb : list Z) : bool :=
  (1 <=? len mb) && (len mb <=? 4) && (Z.land (last mb 0) 3 + 1 =? len mb).


(** A PalmDoc file with one PalmDoc-compressed text record made of the
    raw runs [chunks]. *)
Definition palm_raw_doc_file (chunks : list (list Z)) : list Z :=
  pdb_file PALMDOC_TYPE_CREATOR
    [palmdoc_header COMPRESSION_PALM (len (List.concat chunks)) 1 0;
     raw_encode chunks].

(** Closes a comparison between closed terms. *)
Ltac concrete :=
  vm_compute; repeat split; try reflexivity; try (intros ?; discriminate).

(** ** Claims settled by evaluation *)

(** C1 (code_bug): with 5999 bytes written to the 6000-byte buffer, the
    back-reference copy of 3 bytes is not stopped by a check (there is only
    [assert(dstLeft >= n)]): the copy runs past [dstEnd] instead of
    returning [-1]. *)
Theorem palmdoc_backref_overruns_buffer :
  PalmdocUncompress pd_overflow_src kPalmBufLen = UB.
Proof. vm_compute. reflexivity. Qed.

(** C2 (code_bug): a document declaring 3 uncompressed bytes whose only
    text record yields 2 bytes is returned as a success. *)
Theorem short_document_accepted :
  exists st, ParseFile (source_of (plain_doc_file 3 [97; 98])) = Ok st
    /\ docUncompressedSize st = 3 /\ doc st = [97; 98].
Proof. eexists. vm_compute. split; [reflexivity | split; reflexivity]. Qed.

(** C4 (code_bug): for a file with 2 records, [ReadRecord] of record 2
    is not rejected: it reads [recHeaders[3]], past the 3-entry table. *)
Theorem read_record_past_table :
  exists env, pdb_open (source_of (plain_doc_file 3 [97; 98])) = Ok env
    /\ env_numRecords env = 2
    /\ ReadRecord (source_of (plain_doc_file 3 [97; 98])) (env_recHeaders env) 2 = UB.
Proof. eexists. split; [vm_compute; reflexivity | split; vm_compute; reflexivity]. Qed.

(** C5 (code_bug): one trailer whose base-128 length (6) exceeds the
    5-byte record: [newLen -= n] wraps and the trailing-data size returned
    is 6, more than the record holds, with no failure. *)
Theorem trailer_shrink_wraps :
  ExtraDataSize [0; 0; 0; 0; 134] 5 1 false = Ok 6.
Proof. vm_compute. reflexivity. Qed.

(** C7 (code_bug): a HUFF record with a well-formed sub-header whose cache
    entries all have code length 0 is accepted: [UnpackCacheData] returns
    false but [SetHuffData] ignores it and returns true. *)
Theorem zero_code_length_accepted :
  UnpackCacheData huff_zero_cache 24 = Ok (false, [])
  /\ exists d, SetHuffData huff_zero_cache = Ok d.
Proof. split; [vm_compute; reflexivity | eexists; vm_compute; reflexivity]. Qed.

(** C6 (counterexample): a [2^31]-byte file whose single record starts at
    [0x80000000] opens; its sentinel is [-2^31], not the file size. *)
Theorem sentinel_not_file_size :
  exists env, pdb_open big_source = Ok env
    /\ env_recHeaders env = [- 2 ^ 31; - 2 ^ 31]
    /\ last (env_recHeaders env) 0 <> fsize big_source.
Proof.
  eexists. split; [vm_compute; reflexivity|].
  split; [reflexivity | vm_compute; discriminate].
Qed.

(** ** C3: the back-reference copy *)


Lemma len_app (a b : list Z) : len (a ++ b) = len a + len b.
Proof. unfold len. rewrite length_app. lia. Qed.

(** The forward copy: [n] bytes appended, each equal to the byte [back]
    positions before it, reading bytes the copy itself wrote. *)
Lemma back_copy_spec : forall n back dst dstLen,
  (1 <= back <= length dst)%nat -> len dst + Z.of_nat n <= dstLen ->
  exists ext, back_copy n back dst dstLen = Ok (dst ++ ext)
    /\ length ext = n
    /\ forall k, (k < n)%nat ->
         nth (length dst + k) (dst ++ ext) 0
         = nth (length dst + k - back) (dst ++ ext) 0.
Proof.
  induction n as [|n IH]; intros back dst dstLen Hb Hlen.
  - exists []. rewrite app_nil_r. split; [reflexivity|]. split; [reflexivity|].
    intros k Hk. lia.
  - simpl back_copy.
    assert (Hlt : (dstLen <=? len dst) = false).
    { apply Z.leb_gt. lia. }
    rewrite Hlt.
    set (x := nth (length dst - back) dst 0).
    destruct (IH back (dst ++ [x]) dstLen) as (ext & Hrun & Hl & Hk).
    { rewrite length_app. simpl. lia. }
    { rewrite len_app. unfold len at 2. simpl. lia. }
    exists (x :: ext). rewrite <- app_assoc in Hrun. simpl in Hrun.
    split; [exact Hrun|]. split; [simpl; lia|].
    intros k Hkn. destruct k as [|k].
    + rewrite Nat.add_0_r.
      rewrite app_nth2 by lia. rewrite Nat.sub_diag. simpl.
      rewrite app_nth1 by lia. reflexivity.
    + specialize (Hk k ltac:(lia)).
      rewrite length_app in Hk. simpl in Hk. rewrite <- app_assoc in Hk.
      simpl in Hk. replace (length dst + S k)%nat with (length dst + 1 + k)%nat by lia.
      replace (length dst + S k - back)%nat with (length dst + 1 + k - back)%nat by lia.
      exact Hk.
Qed.

(** C3: a leading byte [c] with [128 <= c < 192] and the next input byte
    [b] form [v = (c << 8) | b]; the step copies [n = (v & 7) + 3] bytes
    forward from [back = (v >> 3) & 0x7FF] positions before the current
    output position, one byte at a time, each new byte equal to the byte
    [back] positions before it (so overlapping copies repeat the pattern).
    The copy must stay within the output: [back] at least 1 and at most the
    output written so far, and [n] bytes of room left. *)
Theorem palmdoc_backref_step : forall fuel c b rest dst dstLen v back n,
  128 <= c < 192 -> 0 <= b < 256 ->
  v = Z.lor (Z.shiftl c 8) b ->
  back = Z.land (Z.shiftr v 3) 2047 ->
  n = Z.land v 7 + 3 ->
  1 <= back <= len dst -> len dst + n <= dstLen ->
  exists ext,
    pd_loop (S fuel) (c :: b :: rest) dst dstLen
      = pd_loop fuel rest (dst ++ ext) dstLen
    /\ len ext = n
    /\ forall k, 0 <= k < n ->
         byte_at (dst ++ ext) (len dst + k)
         = byte_at (dst ++ ext) (len dst + k - back).
Proof.
  intros fuel c b rest dst dstLen v back n Hc Hb Hv Hback Hn Hbk Hroom.
  assert (Hn3 : 3 <= n) by (subst n; pose proof (Z.land_nonneg v 7); lia).
  cbn [pd_loop].
  rewrite <- Hv, <- Hback, <- Hn.
  assert (E1 : (dstLen - len dst =? 0) = false) by (apply Z.eqb_neq; lia).
  assert (E2 : ((1 <=? c) && (c <=? 8)) = false)
    by (apply andb_false_iff; right; apply Z.leb_gt; lia).
  assert (E3 : (c <? 128) = false) by (apply Z.ltb_ge; lia).
  assert (E4 : (192 <=? c) = false) by (apply Z.leb_gt; lia).
  assert (E5 : ((len dst <? back) || (back =? 0)) = false)
    by (apply orb_false_iff; split; [apply Z.ltb_ge | apply Z.eqb_neq]; lia).
  rewrite E1, E2, E3, E4, E5.
  unfold len in *.
  destruct (back_copy_spec (Z.to_nat n) (Z.to_nat back) dst dstLen)
    as (ext & Hrun & Hl & Hk); [lia | unfold len; lia |].
  rewrite Hrun. exists ext. split; [reflexivity|]. split; [lia|].
  intros k Hk'. unfold byte_at.
  replace (Z.to_nat (Z.of_nat (length dst) + k))
    with (length dst + Z.to_nat k)%nat by lia.
  replace (Z.to_nat (Z.of_nat (length dst) + k - back))
    with (length dst + Z.to_nat k - Z.to_nat back)%nat by lia.
  apply Hk. lia.
Qed.

(** Witness: after "ab", the pair [128; 16] is [back = 2], [n = 3]. *)
Lemma palmdoc_backref_step_witness :
  exists ext,
    pd_loop 1 [128; 16] [97; 98] 100 = pd_loop 0 [] ([97; 98] ++ ext) 100
    /\ len ext = 3
    /\ forall k, 0 <= k < 3 ->
         byte_at ([97; 98] ++ ext) (2 + k) = byte_at ([97; 98] ++ ext) (2 + k - 2).
Proof.
  apply (palmdoc_backref_step 0 128 16 [] [97; 98] 100 (Z.lor (Z.shiftl 128 8) 16)
           (Z.land (Z.shiftr (Z.lor (Z.shiftl 128 8) 16) 3) 2047)
           (Z.land (Z.lor (Z.shiftl 128 8) 16) 7 + 3));
    try reflexivity; concrete.
Defined.

(** ** C8: the extra-data flags *)

Lemma Forall_skipn' {A} (P : A -> Prop) n l : Forall P l -> Forall P (skipn n l).
Proof.
  intros H. rewrite <- (firstn_skipn n l) in H. apply Forall_app in H. tauto.
Qed.

Lemma byte_at_range l i : Forall is_byte l -> 0 <= byte_at l i < 256.
Proof.
  intros H. unfold byte_at.
  destruct (Nat.lt_ge_cases (Z.to_nat i) (length l)) as [Hi|Hi].
  - rewrite Forall_forall in H. apply H. apply nth_In. exact Hi.
  - rewrite nth_overflow by exact Hi. lia.
Qed.

Lemma be16_range l i : Forall is_byte l -> 0 <= be16 l i < 2 ^ 16.
Proof.
  intros H. unfold be16.
  pose proof (byte_at_range l i H). pose proof (byte_at_range l (i + 1) H).
  lia.
Qed.

Lemma land_pow2 x i : 0 <= i ->
  Z.land x (2 ^ i) = if Z.testbit x i then 2 ^ i else 0.
Proof.
  intros Hi. apply Z.bits_inj'. intros m Hm.
  rewrite Z.land_spec, Z.pow2_bits_eqb by exact Hi.
  destruct (Z.eqb_spec i m) as [->|Hne].
  - destruct (Z.testbit x m); [rewrite Z.pow2_bits_true | rewrite Z.bits_0];
      auto with bool; lia.
  - rewrite andb_false_r.
    destruct (Z.testbit x i); [rewrite Z.pow2_bits_false by lia|rewrite Z.bits_0];
      reflexivity.
Qed.

Lemma land_pow2_eqb0 x i : 0 <= i ->
  (Z.land x (2 ^ i) =? 0) = negb (Z.testbit x i).
Proof.
  intros Hi. rewrite land_pow2 by exact Hi.
  destruct (Z.testbit x i); simpl; [|reflexivity].
  apply Z.eqb_neq. pose proof (Z.pow_pos_nonneg 2 i). lia.
Qed.

Lemma count_from_shift : forall m s x,
  count_from (S s) m x = count_from s m (Z.shiftr x 1).
Proof.
  unfold count_from. induction m as [|m IH]; intros s x; [reflexivity|].
  cbn [seq filter].
  rewrite Z.shiftr_spec by lia.
  replace (Z.of_nat s + 1) with (Z.of_nat (S s)) by lia.
  destruct (Z.testbit x (Z.of_nat (S s))); cbn [length]; rewrite IH; reflexivity.
Qed.

Lemma count_from_small : forall m s x, 0 <= x <= 1 -> (1 <= s)%nat ->
  count_from s m x = O.
Proof.
  unfold count_from. induction m as [|m IH]; intros s x Hx Hs; [reflexivity|].
  cbn [seq filter].
  rewrite Z.bits_above_log2; [apply IH; lia | lia |].
  assert (Z.log2 x = 0) as -> by (destruct (Z.eq_dec x 0) as [->|]; [reflexivity|];
    replace x with 1 by lia; reflexivity).
  lia.
Qed.

Lemma trailers_loop_count : forall fuel x c,
  0 <= x < 2 ^ (Z.of_nat fuel + 1) ->
  trailers_loop fuel x c = c + Z.of_nat (count_from 1 fuel x).
Proof.
  induction fuel as [|m IH]; intros x c Hx.
  - simpl. unfold count_from. simpl. lia.
  - cbn [trailers_loop].
    destruct (Z.ltb_spec 1 x) as [Hgt|Hle].
    + rewrite IH.
      2:{ rewrite Z.shiftr_div_pow2 by lia. split.
          - apply Z.div_pos; lia.
          - apply Z.div_lt_upper_bound; [lia|].
            replace (2 ^ 1 * 2 ^ (Z.of_nat m + 1)) with (2 ^ (Z.of_nat (S m) + 1)).
            + lia.
            + rewrite <- Z.pow_add_r by lia. f_equal. lia. }
      assert (Hc : count_from 1 (S m) x =
        ((if Z.testbit x 1 then 1 else 0) + count_from 1 m (Z.shiftr x 1))%nat).
      { rewrite <- count_from_shift. unfold count_from. cbn [seq filter].
        change (Z.of_nat 1) with 1. destruct (Z.testbit x 1); reflexivity. }
      rewrite Hc.
      replace (Z.land x 2 =? 0) with (negb (Z.testbit x 1))
        by (symmetry; apply (land_pow2_eqb0 x 1); lia).
      destruct (Z.testbit x 1); cbn [negb]; lia.
    + rewrite count_from_small by lia. lia.
Qed.

(** C8: the trailing-data shape [ParseHeader] stores.  With no extended
    header (record 0 is just the 16-byte PalmDoc header), or one whose
    declared length is below 228, it is "no trailers, not multibyte";
    otherwise [multibyte] is bit 0 of the flags and [trailersCount] the
    number of set bits at positions 1 and above. *)
Theorem extra_flags_decoding : forall f env rec0 st,
  Forall is_byte rec0 ->
  parse_record0 f env rec0 = Ok st ->
  (multibyte st, trailersCount st) =
    (if (len rec0 =? 16) || (be32 (skipn 16 rec0) mobi_hdrLen_off <? 228)
     then (false, 0)
     else let flags := be16 (skipn 16 rec0) mobi_extraDataFlags_off in
          (Z.testbit flags 0, trailer_bits flags)).
Proof.
  intros f env rec0 st Hb H.
  assert (Hshape : forall hdrLen,
    extra_data_shape hdrLen (skipn 16 rec0) =
      if hdrLen <? 228 then (false, 0)
      else let flags := be16 (skipn 16 rec0) mobi_extraDataFlags_off in
           (Z.testbit flags 0, trailer_bits flags)).
  { intros hdrLen. unfold extra_data_shape.
    pose proof (be16_range (skipn 16 rec0) mobi_extraDataFlags_off
                  (Forall_skipn' _ 16 _ Hb)) as Hr.
    destruct (Z.ltb_spec hdrLen 228); destruct (Z.leb_spec 228 hdrLen);
      try lia; [reflexivity|].
    cbv zeta. f_equal.
    - change 1 with (2 ^ 0). rewrite land_pow2_eqb0 by lia.
      apply negb_involutive.
    - rewrite trailers_loop_count by (replace (2 ^ (Z.of_nat 16 + 1)) with 131072 by reflexivity; lia).
      unfold trailer_bits, count_from.
      replace (seq 1 16) with (seq 1 15 ++ [16%nat]) by reflexivity.
      rewrite filter_app. cbn [filter].
      rewrite (Z.bits_above_log2 _ (Z.of_nat 16)); [rewrite app_nil_r; lia | lia |].
      destruct (Z.eq_dec (be16 (skipn 16 rec0) mobi_extraDataFlags_off) 0) as [->|Hnz];
        [simpl; lia|].
      apply Z.log2_lt_pow2; [lia|]. exact (proj2 Hr). }
  assert (Hmh : skipn (Z.to_nat kPalmDocHeaderLen) rec0 = skipn 16 rec0)
    by reflexivity.
  unfold parse_record0 in H. rewrite Hmh in H.
  set (mh := skipn 16 rec0) in *.
  set (hl := be32 mh mobi_hdrLen_off) in *.
  destruct (len rec0 - kPalmDocHeaderLen =? 0) eqn:E0.
  - apply Z.eqb_eq in E0. unfold kPalmDocHeaderLen in E0.
    replace (len rec0 =? 16) with true by (symmetry; apply Z.eqb_eq; lia).
    repeat match type of H with
    | context [if ?b then _ else _] => destruct b; try discriminate
    end.
    injection H as <-. reflexivity.
  - apply Z.eqb_neq in E0. unfold kPalmDocHeaderLen in E0.
    replace (len rec0 =? 16) with false by (symmetry; apply Z.eqb_neq; lia).
    rewrite orb_false_l.
    assert (Hst : (multibyte st, trailersCount st) = extra_data_shape hl mh).
    { repeat match type of H with
      | context [if ?b then _ else _] => destruct b; try discriminate
      end.
      all: try (destruct (huff_dic_load _ _ _ _); try discriminate; cbn [bind] in H).
      all: injection H as <-; cbn [multibyte trailersCount].
      all: destruct (extra_data_shape hl mh); reflexivity. }
    rewrite Hst, Hshape. destruct (hl <? 228); reflexivity.
Qed.


Lemma bytes_ok_Forall l : bytes_ok l = true -> Forall is_byte l.
Proof.
  unfold bytes_ok. intros H. apply Forall_forall. intros x Hx.
  rewrite forallb_forall in H. specialize (H x Hx).
  apply andb_true_iff in H as [H1 H2]. unfold is_byte. lia.
Qed.

Lemma extra_flags_decoding_witness :
  exists st,
    parse_record0 (source_of []) (mkEnvelope true 1 [0; 0]) (mobi_rec0_flags 7)
      = Ok st
    /\ (multibyte st, trailersCount st) = (true, 2).
Proof.
  destruct (parse_record0 (source_of []) (mkEnvelope true 1 [0; 0])
              (mobi_rec0_flags 7)) as [st|e|] eqn:E;
    try (vm_compute in E; discriminate).
  exists st. split; [reflexivity|].
  rewrite (extra_flags_decoding (source_of []) (mkEnvelope true 1 [0; 0])
             (mobi_rec0_flags 7) st (bytes_ok_Forall (mobi_rec0_flags 7) eq_refl) E).
  vm_compute. reflexivity.
Defined.

(** ** C6: the envelope built by [pdb_open] *)

Lemma to_i32_small x : 0 <= x < 2 ^ 31 -> to_i32 x = x.
Proof.
  intros Hx. unfold to_i32. rewrite Z.mod_small by lia.
  destruct (Z.geb_spec x (2 ^ 31)); lia.
Qed.

(** C6 (amended): when [pdb_open] succeeds the record count is at least 1,
    the table has count + 1 entries, the sentinel is the file size as the
    [int32_t] offset field holds it (the file size itself for files below
    2 GiB), and every offset is at most the next (as signed 32-bit values);
    so a count below 1 or an offset above its successor makes it fail. *)
Theorem pdb_open_envelope : forall f env,
  pdb_open f = Ok env ->
  let t := env_recHeaders env in
  1 <= env_numRecords env
  /\ length t = (Z.to_nat (env_numRecords env) + 1)%nat
  /\ last t 0 = to_i32 (fsize f)
  /\ (0 <= fsize f < 2 ^ 31 -> last t 0 = fsize f)
  /\ (forall i, (i < Z.to_nat (env_numRecords env))%nat ->
        nth i t 0 <= nth (S i) t 0).
Proof.
  intros f env H. unfold pdb_open in H.
  destruct (negb (len (read_at f 0 kPdbHeaderLen) =? kPdbHeaderLen));
    [discriminate|].
  destruct (if list_Z_eqb _ MOBI_TYPE_CREATOR then Some true
            else if list_Z_eqb _ PALMDOC_TYPE_CREATOR then Some false else None)
    as [isM|]; [|discriminate].
  set (n := to_i16 _) in H.
  destruct (Z.ltb_spec n 1) as [Hn|Hn]; [discriminate|].
  destruct (negb (len (read_at f kPdbHeaderLen (u32 (kPdbRecordHeaderLen * n)))
                  =? u32 (kPdbRecordHeaderLen * n))); [discriminate|].
  set (t := rec_offsets _ n ++ [to_i32 (fsize f)]) in H.
  destruct (offsets_ok t n) eqn:Hok; [|discriminate].
  injection H as <-. cbn zeta. cbn [env_numRecords env_recHeaders].
  assert (Hlast : last t 0 = to_i32 (fsize f)) by apply last_last.
  split; [lia|]. split.
  { unfold t, rec_offsets. rewrite length_app, length_map, length_seq.
    reflexivity. }
  split; [exact Hlast|]. split.
  { intros Hs. rewrite Hlast. apply to_i32_small. exact Hs. }
  intros i Hi. unfold offsets_ok in Hok. rewrite forallb_forall in Hok.
  assert (Hin : In i (seq 0 (Z.to_nat n))) by (apply in_seq; lia).
  specialize (Hok i Hin).
  destruct (Z.ltb_spec (nth (S i) t 0) (nth i t 0)); [discriminate|lia].
Qed.

Lemma pdb_open_envelope_witness :
  exists env, pdb_open (source_of (plain_doc_file 3 [97; 98])) = Ok env
    /\ last (env_recHeaders env) 0 = fsize (source_of (plain_doc_file 3 [97; 98])).
Proof.
  destruct (pdb_open (source_of (plain_doc_file 3 [97; 98]))) as [env|e|] eqn:E;
    try (vm_compute in E; discriminate).
  exists env. split; [reflexivity|].
  destruct (pdb_open_envelope _ _ E) as (_ & _ & _ & Hs & _).
  apply Hs. concrete.
Defined.

(** ** C9: encrypted MOBI documents *)

Lemma parse_record0_encrypted : forall f env rec0,
  env_isMobi env = true -> 16 <= len rec0 ->
  IsValidCompression (to_i16 (be16 rec0 0)) = true ->
  be16 rec0 12 <> ENCRYPTION_NONE ->
  parse_record0 f env rec0 = Err PhEncryption.
Proof.
  intros f env rec0 Hm Hl Hc He. unfold parse_record0.
  replace (len rec0 <? kPalmDocHeaderLen) with false
    by (symmetry; apply Z.ltb_ge; unfold kPalmDocHeaderLen; lia).
  rewrite Hc, Hm. cbn [negb andb].
  replace (be16 rec0 12 =? ENCRYPTION_NONE) with false
    by (symmetry; apply Z.eqb_neq; exact He).
  reflexivity.
Qed.

(** C9: a BOOKMOBI file whose PalmDoc header carries a non-zero encryption
    field fails header parsing at the encryption check, whatever its
    (valid) compression kind and its records, and [ParseFile] returns
    [NULL]: no document at all. *)
Theorem encrypted_mobi_rejected : forall f env rec0,
  pdb_open f = Ok env -> env_isMobi env = true ->
  ReadRecord f (env_recHeaders env) 0 = Ok rec0 ->
  16 <= len rec0 ->
  IsValidCompression (to_i16 (be16 rec0 0)) = true ->
  be16 rec0 12 <> ENCRYPTION_NONE ->
  ParseHeader f = Err PhEncryption /\ ParseFile f = Err tt.
Proof.
  intros f env rec0 Ho Hm Hr Hl Hc He.
  assert (Hp : ParseHeader f = Err PhEncryption).
  { unfold ParseHeader. rewrite Ho. cbn [bind]. rewrite Hr. cbn [rr_to bind].
    apply parse_record0_encrypted; assumption. }
  split; [exact Hp|]. unfold ParseFile. rewrite Hp. reflexivity.
Qed.

Lemma encrypted_mobi_rejected_witness :
  ParseHeader (source_of (mobi_doc_file COMPRESSION_PALM 1)) = Err PhEncryption
  /\ ParseFile (source_of (mobi_doc_file COMPRESSION_PALM 1)) = Err tt.
Proof.
  apply (encrypted_mobi_rejected _ (mkEnvelope true 2 [94; 110; 112])
           (palmdoc_header COMPRESSION_PALM 2 1 1));
    concrete.
Defined.

(** ** C10: HuffmanDict documents *)

Lemma bind_ok {E A B} (m : res E A) (k : A -> res E B) b :
  bind m k = Ok b -> exists a, m = Ok a /\ k a = Ok b.
Proof. destruct m; cbn [bind]; [eauto | discriminate | discriminate]. Qed.

Lemma huff_dic_load_fails : forall f t first count d,
  1 < count -> huff_dic_load f t first count <> Ok d.
Proof.
  intros f t first count d Hc H. unfold huff_dic_load in H.
  apply bind_ok in H as (r & _ & H).
  apply bind_ok in H as (d0 & _ & H).
  destruct (Z.to_nat (count - 1)) as [|k] eqn:Ek; [lia|].
  cbn [cdic_loop] in H. apply bind_ok in H as (r1 & _ & H).
  unfold AddCdicData in H. discriminate.
Qed.

Lemma huff_record_fails : forall f st recNo d d',
  compressionType st = COMPRESSION_HUFF ->
  LoadDocRecordIntoBuffer f st recNo d <> Ok d'.
Proof.
  intros f st recNo d d' Hc H. unfold LoadDocRecordIntoBuffer in H.
  apply bind_ok in H as (r & _ & H).
  apply bind_ok in H as (extra & _ & H).
  rewrite Hc in H. vm_compute in H. discriminate.
Qed.

Lemma huff_load_fails : forall f st st',
  compressionType st = COMPRESSION_HUFF -> 1 <= size_t (docRecCount st) ->
  LoadDocument f st <> Ok st'.
Proof.
  intros f st st' Hc Hn H. unfold LoadDocument in H.
  apply bind_ok in H as (d & Hl & _).
  destruct (Z.to_nat (size_t (docRecCount st))) as [|k] eqn:Ek; [lia|].
  cbn [load_records] in Hl. apply bind_ok in Hl as (d1 & Hr & _).
  exact (huff_record_fails f st 1 (doc st) d1 Hc Hr).
Qed.

(** C10: nothing compressed with HuffmanDict is ever decoded.  Dictionary
    ingestion rejects every CDIC record; header parsing of a HuffmanDict
    record 0 whose extended header declares more than one dictionary
    record fails; loading a text record under HuffmanDict fails; so a
    document that [ParseFile] returns with HuffmanDict compression has no
    text record. *)
Theorem huffman_documents_never_decode :
  (forall d data, AddCdicData d data = false)
  /\ (forall f env rec0 st,
        to_i16 (be16 rec0 0) = COMPRESSION_HUFF -> kPalmDocHeaderLen < len rec0 ->
        1 < be32 (skipn 16 rec0) mobi_huffmanRecCount_off ->
        parse_record0 f env rec0 <> Ok st)
  /\ (forall f st recNo d d',
        compressionType st = COMPRESSION_HUFF ->
        LoadDocRecordIntoBuffer f st recNo d <> Ok d')
  /\ (forall f st st',
        compressionType st = COMPRESSION_HUFF -> 1 <= size_t (docRecCount st) ->
        LoadDocument f st <> Ok st')
  /\ (forall f st,
        ParseFile f = Ok st -> compressionType st = COMPRESSION_HUFF ->
        size_t (docRecCount st) = 0).
Proof.
  split; [reflexivity|]. split.
  { intros f env rec0 st Hc Hl Hn H. unfold parse_record0 in H.
    assert (Hmh : skipn (Z.to_nat kPalmDocHeaderLen) rec0 = skipn 16 rec0)
      by reflexivity.
    rewrite Hmh, Hc in H. unfold kPalmDocHeaderLen in *.
    replace (len rec0 - 16 =? 0) with false in H
      by (symmetry; apply Z.eqb_neq; lia).
    replace (COMPRESSION_HUFF =? COMPRESSION_HUFF) with true in H by reflexivity.
    repeat match type of H with
    | context [if ?b then _ else _] => destruct b; try discriminate
    end.
    apply bind_ok in H as (d & Hd & _).
    exact (huff_dic_load_fails _ _ _ _ d Hn Hd). }
  split; [exact huff_record_fails|]. split; [exact huff_load_fails|].
  intros f st H Hc. unfold ParseFile in H.
  destruct (ParseHeader f) as [st0| |]; try discriminate.
  pose proof H as H'. unfold LoadDocument in H'.
  apply bind_ok in H' as (d & _ & Hw). injection Hw as <-.
  cbn [with_doc compressionType docRecCount] in *.
  assert (0 <= size_t (docRecCount st0))
    by (unfold size_t; apply Z.mod_pos_bound; lia).
  destruct (Z.eq_dec (size_t (docRecCount st0)) 0) as [|Hne]; [assumption|].
  exfalso. apply (huff_load_fails f st0 _ Hc ltac:(lia) H).
Qed.

Lemma huffman_documents_never_decode_witness :
  exists st0,
    ParseHeader (source_of (pdb_file PALMDOC_TYPE_CREATOR
                   [palmdoc_header COMPRESSION_HUFF 2 1 0; [97; 98]])) = Ok st0
    /\ compressionType st0 = COMPRESSION_HUFF
    /\ match LoadDocument (source_of (pdb_file PALMDOC_TYPE_CREATOR
                   [palmdoc_header COMPRESSION_HUFF 2 1 0; [97; 98]])) st0 with
       | Ok _ => False
       | _ => True
       end.
Proof.
  eexists. split; [vm_compute; reflexivity|]. split; [reflexivity|].
  match goal with |- match ?m with _ => _ end => destruct m eqn:E end;
    [| exact I | exact I].
  revert E.
  destruct huffman_documents_never_decode as (_ & _ & _ & Hload & _).
  intros E. eapply Hload; [| | exact E]; concrete.
Defined.

(** ** Further properties of the decoder *)





Lemma raw_encode_decodes : forall chunks fuel dst dstLen,
  forallb chunk_ok chunks = true ->
  (length (raw_encode chunks) <= fuel)%nat ->
  len dst + len (List.concat chunks) <= dstLen ->
  pd_loop fuel (raw_encode chunks) dst dstLen = Ok (dst ++ List.concat chunks).
Proof.
  induction chunks as [|ch chunks IH]; intros fuel dst dstLen Hok Hf Hroom.
  - simpl. rewrite app_nil_r. destruct fuel; reflexivity.
  - simpl in Hok. apply andb_true_iff in Hok as [Hch Hok].
    unfold chunk_ok in Hch. apply andb_true_iff in Hch as [H1 H8].
    apply Z.leb_le in H1. apply Z.leb_le in H8.
    cbn [List.concat] in Hroom. rewrite len_app in Hroom.
    unfold raw_encode in *. cbn [flat_map] in *.
    destruct fuel as [|fuel]; [simpl in Hf; lia|].
    cbn [pd_loop app].
    replace (dstLen - len dst =? 0) with false
      by (symmetry; apply Z.eqb_neq; unfold len in *; lia).
    replace ((1 <=? len ch) && (len ch <=? 8)) with true
      by (symmetry; apply andb_true_iff; split; apply Z.leb_le; lia).
    replace (dstLen - len dst <? len ch) with false
      by (symmetry; apply Z.ltb_ge; unfold len in *; lia).
    replace (len (ch ++ flat_map (fun ch0 => len ch0 :: ch0) chunks) <? len ch)
      with false by (symmetry; apply Z.ltb_ge; rewrite len_app; unfold len; lia).
    assert (Hn : Z.to_nat (len ch) = length ch) by (unfold len; lia).
    rewrite Hn, skipn_app, firstn_app, Nat.sub_diag, skipn_all, firstn_all.
    cbn [skipn firstn app]. rewrite app_nil_r.
    rewrite IH; [cbn [List.concat]; rewrite app_assoc; reflexivity | exact Hok | |].
    + simpl in Hf. rewrite length_app in Hf. lia.
    + rewrite len_app. lia.
Qed.

(** Raw runs round-trip: input made of 1..8-byte chunks, each preceded by
    its length, decodes to the chunks' bytes in order whenever they fit in
    the buffer. *)
Theorem palmdoc_raw_roundtrip : forall chunks dstLen,
  forallb chunk_ok chunks = true -> len (List.concat chunks) <= dstLen ->
  PalmdocUncompress (raw_encode chunks) dstLen = Ok (List.concat chunks).
Proof.
  intros chunks dstLen Hok Hroom. unfold PalmdocUncompress.
  apply raw_encode_decodes; [exact Hok | lia | unfold len at 1; simpl; lia].
Qed.

Lemma palmdoc_raw_roundtrip_witness :
  PalmdocUncompress (raw_encode [[200; 1; 2]; [0; 255]]) 5 = Ok [200; 1; 2; 0; 255].
Proof. apply (palmdoc_raw_roundtrip [[200; 1; 2]; [0; 255]] 5); concrete. Defined.

Lemma literals_decode : forall src fuel dst dstLen,
  forallb is_literal src = true -> (length src <= fuel)%nat ->
  len dst <= dstLen ->
  pd_loop fuel src dst dstLen =
    if len dst + len src <=? dstLen then Ok (dst ++ src) else Err tt.
Proof.
  induction src as [|c src IH]; intros fuel dst dstLen Hl Hf Hd.
  - rewrite app_nil_r. unfold len at 2. simpl.
    replace (len dst + 0 <=? dstLen) with true by (symmetry; apply Z.leb_le; lia).
    destruct fuel; reflexivity.
  - simpl in Hl. apply andb_true_iff in Hl as [Hc Hl].
    destruct fuel as [|fuel]; [simpl in Hf; lia|]. cbn [pd_loop].
    unfold is_literal in Hc.
    assert (Hc' : c = 0 \/ 9 <= c < 128).
    { apply orb_true_iff in Hc as [Hc|Hc]; [left; apply Z.eqb_eq; exact Hc|].
      apply andb_true_iff in Hc as [Ha Hb]. apply Z.leb_le in Ha.
      apply Z.ltb_lt in Hb. right; lia. }
    replace ((1 <=? c) && (c <=? 8)) with false
      by (symmetry; apply andb_false_iff; destruct Hc';
          [left; apply Z.leb_gt | right; apply Z.leb_gt]; lia).
    replace (c <? 128) with true by (symmetry; apply Z.ltb_lt; lia).
    destruct (Z.eqb_spec (dstLen - len dst) 0).
    + replace (len dst + len (c :: src) <=? dstLen) with false; [reflexivity|].
      symmetry. apply Z.leb_gt. unfold len in *. simpl. lia.
    + rewrite IH; [| exact Hl | simpl in Hf; lia | rewrite len_app; unfold len in *; simpl; lia].
      rewrite <- app_assoc. cbn [app].
      replace (len (dst ++ [c]) + len src) with (len dst + len (c :: src))
        by (rewrite len_app; unfold len; simpl; lia).
      reflexivity.
Qed.

(** Input made only of literal bytes (0 or 9..127) decodes to itself when
    it fits in the buffer, and otherwise fails ([-1]) rather than
    truncating. *)
Theorem palmdoc_literals : forall src dstLen,
  0 <= dstLen -> forallb is_literal src = true ->
  PalmdocUncompress src dstLen =
    if len src <=? dstLen then Ok src else Err tt.
Proof.
  intros src dstLen Hd Hl. unfold PalmdocUncompress.
  rewrite literals_decode; [| exact Hl | lia | unfold len; simpl; lia].
  reflexivity.
Qed.

Lemma palmdoc_literals_witness :
  PalmdocUncompress [72; 105; 33] 2 = Err tt.
Proof. rewrite (palmdoc_literals [72; 105; 33] 2); concrete. Defined.

(** ** Further properties of [ExtraDataSize] *)

Lemma size_t_small x : 0 <= x < 2 ^ 64 -> size_t x = x.
Proof. intros Hx. unfold size_t. apply Z.mod_small. exact Hx. Qed.

Lemma u32_small x : 0 <= x < 2 ^ 32 -> u32 x = x.
Proof. intros Hx. unfold u32. apply Z.mod_small. exact Hx. Qed.

Lemma byte_at_app_l a b i : 0 <= i < len a -> byte_at (a ++ b) i = byte_at a i.
Proof. intros Hi. unfold byte_at, len in *. apply app_nth1. lia. Qed.

Lemma last_app_r (a b : list Z) d : b <> [] -> last (a ++ b) d = last b d.
Proof.
  intros Hb. induction a as [|x a IH]; [reflexivity|].
  rewrite <- app_comm_cons. rewrite <- IH. destruct a, b; try reflexivity.
  contradiction.
Qed.

Lemma byte_at_last (a : list Z) : a <> [] -> byte_at a (len a - 1) = last a 0.
Proof.
  intros Ha. destruct (exists_last Ha) as (a' & x & ->).
  rewrite last_last. unfold byte_at, len. rewrite length_app. simpl.
  replace (Z.to_nat (Z.of_nat (length a' + 1) - 1)) with (length a') by lia.
  rewrite app_nth2 by lia. rewrite Nat.sub_diag. reflexivity.
Qed.

Lemma land127_range v : 0 <= Z.land v 127 < 128.
Proof.
  change 127 with (Z.ones 7). rewrite Z.land_ones by lia.
  apply Z.mod_pos_bound. lia.
Qed.

(** The base-128 reader ends on the last byte: when that byte has its high
    bit set, the value is its low seven bits whatever precedes it. *)
Lemma trailer_value_high_last : forall r N n,
  4 <= N <= len r -> N < 2 ^ 64 ->
  Z.land (byte_at r (N - 1)) 128 <> 0 ->
  trailer_value [0; 1; 2; 3] r N n = Ok (Z.land (byte_at r (N - 1)) 127).
Proof.
  intros r N n HN H64 Hhi.
  assert (Hin : forall j, 0 <= j <= 3 ->
            rec_byte (E:=unit) r (size_t (N - 4 + j)) = Ok (byte_at r (N - 4 + j))).
  { intros j Hj. rewrite size_t_small by lia. unfold rec_byte.
    replace ((0 <=? N - 4 + j) && (N - 4 + j <? len r)) with true; [reflexivity|].
    symmetry. apply andb_true_iff. split; [apply Z.leb_le | apply Z.ltb_lt]; lia. }
  cbn [trailer_value].
  rewrite (Hin 0), (Hin 1), (Hin 2), (Hin 3) by lia. cbn [bind].
  replace (N - 4 + 3) with (N - 1) by lia.
  apply Z.eqb_neq in Hhi. rewrite Hhi.
  rewrite Z.shiftl_0_l, Z.lor_0_l. rewrite u32_small; [reflexivity|].
  pose proof (land127_range (byte_at r (N - 1))). lia.
Qed.

Lemma high_byte_bits s : 0 <= s < 128 ->
  Z.land (128 + s) 128 <> 0 /\ Z.land (128 + s) 127 = s.
Proof.
  intros Hs. split.
  - change 128 with (2 ^ 7) at 2. rewrite land_pow2 by lia.
    assert (Hq : (128 + s) / 2 ^ 7 = 1)
      by (symmetry; apply Z.div_unique with s; change (2 ^ 7) with 128; lia).
    pose proof (Z.testbit_spec' (128 + s) 7 ltac:(lia)) as Ht.
    rewrite Hq in Ht. destruct (Z.testbit (128 + s) 7); [discriminate | discriminate Ht].
  - change 127 with (Z.ones 7). rewrite Z.land_ones by lia.
    replace (128 + s) with (s + 1 * 2 ^ 7) by (change (2 ^ 7) with 128; lia).
    rewrite Z.mod_add by lia. apply Z.mod_small. change (2 ^ 7) with 128. lia.
Qed.

Lemma strip_wellformed_trailers : forall ts prefix suffix,
  4 <= len prefix -> forallb size_trailer_ok ts = true ->
  len (prefix ++ List.concat ts ++ suffix) < 2 ^ 64 ->
  strip_trailers (length ts) (prefix ++ List.concat ts ++ suffix)
    (len (prefix ++ List.concat ts)) = Ok (len prefix).
Proof.
  intros ts. induction ts as [|t ts IH] using rev_ind;
    intros prefix suffix Hp Hok H64.
  - cbn [List.concat]. rewrite app_nil_r. reflexivity.
  - rewrite forallb_app in Hok. apply andb_true_iff in Hok as [Hok Ht].
    cbn [forallb] in Ht. rewrite andb_true_r in Ht.
    unfold size_trailer_ok in Ht.
    apply andb_true_iff in Ht as [Ht Hlast]. apply andb_true_iff in Ht as [H1 H128].
    apply Z.leb_le in H1. apply Z.ltb_lt in H128. apply Z.eqb_eq in Hlast.
    assert (Htne : t <> []) by (intros ->; unfold len in H1; simpl in H1; lia).
    rewrite length_app, Nat.add_1_r. cbn [strip_trailers].
    rewrite List.concat_app in *. cbn [List.concat] in *. rewrite app_nil_r in *.
    assert (HX : 4 <= len (prefix ++ List.concat ts))
      by (rewrite len_app; unfold len at 2; lia).
    rewrite <- !app_assoc in *. rewrite !len_app in H64.
    replace (prefix ++ List.concat ts ++ t ++ suffix)
      with (((prefix ++ List.concat ts) ++ t) ++ suffix)
      by (rewrite <- !app_assoc; reflexivity).
    replace (prefix ++ List.concat ts ++ t) with ((prefix ++ List.concat ts) ++ t)
      by (rewrite <- !app_assoc; reflexivity).
    set (X := prefix ++ List.concat ts) in *.
    assert (Hb : byte_at ((X ++ t) ++ suffix) (len (X ++ t) - 1) = 128 + len t).
    { rewrite byte_at_app_l by (rewrite len_app; lia).
      rewrite byte_at_last by (intros He; apply app_eq_nil in He; tauto).
      rewrite last_app_r by exact Htne. exact Hlast. }
    destruct (high_byte_bits (len t) ltac:(lia)) as [Hhi Hlo].
    assert (HXt : len X + len t <= len ((X ++ t) ++ suffix) < 2 ^ 64).
    { unfold X. rewrite !len_app. unfold len in *. lia. }
    rewrite trailer_value_high_last;
      [| rewrite !len_app in *; unfold len in *; lia
       | rewrite !len_app in *; unfold len in *; lia | rewrite Hb; exact Hhi].
    cbn [bind]. rewrite Hb, Hlo, len_app.
    replace (len X + len t - len t) with (len X) by lia.
    rewrite size_t_small by (rewrite len_app in HXt; unfold len in *; lia).
    unfold X. rewrite <- !app_assoc. apply IH; [exact Hp | exact Hok |].
    rewrite !len_app. unfold X in HXt. rewrite !len_app in HXt. lia.
Qed.

(** [ExtraDataSize] measures well-formed trailers exactly: for a record
    made of a body of at least four bytes, an optional multibyte trailer
    and [length ts] size-tagged trailing entries, it returns the total
    size of the trailers. *)
Theorem extra_data_size_wellformed : forall (body mb : list Z) (ts : list (list Z))
  (multibyte : bool),
  4 <= len body -> forallb size_trailer_ok ts = true ->
  (if multibyte then mb_trailer_ok mb = true else mb = []) ->
  len (body ++ mb ++ List.concat ts) < 2 ^ 64 ->
  ExtraDataSize (body ++ mb ++ List.concat ts) (len (body ++ mb ++ List.concat ts))
    (Z.of_nat (length ts)) multibyte = Ok (len mb + len (List.concat ts)).
Proof.
  intros body mb ts multibyte Hb Hts Hmb H64.
  unfold ExtraDataSize. rewrite Nat2Z.id.
  assert (Hs : strip_trailers (length ts) (body ++ mb ++ List.concat ts)
                 (len (body ++ mb ++ List.concat ts)) = Ok (len (body ++ mb))).
  { pose proof (strip_wellformed_trailers ts (body ++ mb) []) as H.
    rewrite app_nil_r, <- app_assoc in H. apply H; [| exact Hts | exact H64].
    rewrite len_app. unfold len in *. lia. }
  rewrite Hs. cbn [bind]. rewrite app_assoc in *.
  rewrite !len_app in *.
  destruct multibyte.
  - unfold mb_trailer_ok in Hmb.
    apply andb_true_iff in Hmb as [Hmb Hlow]. apply andb_true_iff in Hmb as [H1 H4].
    apply Z.leb_le in H1. apply Z.leb_le in H4. apply Z.eqb_eq in Hlow.
    replace (0 <? len body + len mb) with true by (symmetry; apply Z.ltb_lt; lia).
    cbn [andb]. unfold rec_byte.
    rewrite !len_app.
    replace ((0 <=? len body + len mb - 1) &&
             (len body + len mb - 1 <? len body + len mb + len (List.concat ts)))
      with true by (symmetry; apply andb_true_iff; split;
                    [apply Z.leb_le | apply Z.ltb_lt]; unfold len in *; lia).
    cbn [bind].
    assert (Hne : mb <> []) by (intros ->; unfold len in H1; simpl in H1; lia).
    rewrite byte_at_app_l by (rewrite len_app; unfold len in *; lia).
    rewrite <- len_app, byte_at_last, last_app_r, Hlow by
      (exact Hne || (intros He; apply app_eq_nil in He; tauto)).
    rewrite len_app.
    replace (len body + len mb - len mb) with (len body) by lia.
    rewrite (size_t_small (len body)) by (unfold len in *; lia).
    f_equal. rewrite size_t_small; [lia|]. unfold len in *; lia.
  - subst mb. cbn [andb]. unfold len at 2 4. simpl.
    rewrite size_t_small; [f_equal; lia | unfold len in *; lia].
Qed.

Lemma extra_data_size_wellformed_witness :
  ExtraDataSize [1; 2; 3; 4; 0; 7; 130] 7 1 true = Ok 3.
Proof.
  exact (extra_data_size_wellformed [1; 2; 3; 4] [0] [[7; 130]] true
           ltac:(concrete) ltac:(concrete) ltac:(concrete) ltac:(concrete)).
Defined.

(** ** Further properties of the record table and [ReadRecord] *)

Lemma len_read_at f pos n :
  len (read_at f pos n) = Z.max 0 (Z.min n (fsize f - pos)).
Proof. unfold len, read_at. rewrite length_map, length_seq. lia. Qed.

Lemma nth_map_seq_0 (g : nat -> Z) m k :
  (k < m)%nat -> nth k (map g (seq 0 m)) 0 = g k.
Proof.
  intros Hk. rewrite (nth_indep _ 0 (g 0%nat)) by (rewrite length_map, length_seq; lia).
  rewrite map_nth, seq_nth by lia. reflexivity.
Qed.

Lemma read_record_slice : forall f t i,
  0 <= i -> i + 1 < len t -> len t < 2 ^ 64 ->
  0 <= nth (Z.to_nat i) t 0 <= nth (Z.to_nat (i + 1)) t 0 ->
  nth (Z.to_nat (i + 1)) t 0 <= fsize f ->
  nth (Z.to_nat (i + 1)) t 0 < 2 ^ 31 ->
  ReadRecord f t i =
    Ok (read_at f (nth (Z.to_nat i) t 0)
                  (nth (Z.to_nat (i + 1)) t 0 - nth (Z.to_nat i) t 0)).
Proof.
  intros f t i Hi Ht H64 Hlh Hhf H31.
  set (lo := nth (Z.to_nat i) t 0) in *.
  set (hi := nth (Z.to_nat (i + 1)) t 0) in *.
  assert (Hg : forall j, 0 <= j < len t -> tbl_get t j = Ok (nth (Z.to_nat j) t 0)).
  { intros j Hj. unfold tbl_get.
    replace ((0 <=? j) && (j <? len t)) with true; [reflexivity|].
    symmetry. apply andb_true_iff. split; [apply Z.leb_le | apply Z.ltb_lt]; lia. }
  unfold ReadRecord, GetRecordSize.
  rewrite (Hg i) by lia. cbn [bind].
  rewrite (size_t_small (i + 1)) by lia. rewrite (Hg (i + 1)) by lia.
  cbn [bind]. fold lo hi.
  replace ((hi - lo <? - 2 ^ 31) || (2 ^ 31 - 1 <? hi - lo)) with false
    by (symmetry; apply orb_false_iff; split; apply Z.ltb_ge; lia).
  cbn [bind]. rewrite (size_t_small (hi - lo)) by lia.
  rewrite u32_small by lia. rewrite size_t_small by lia.
  rewrite to_i32_small by lia.
  replace (lo <? 0) with false by (symmetry; apply Z.ltb_ge; lia).
  rewrite len_read_at.
  replace (Z.max 0 (Z.min (hi - lo) (fsize f - lo)) =? hi - lo) with true
    by (symmetry; apply Z.eqb_eq; lia).
  reflexivity.
Qed.

(** [ReadRecord] on a record inside the table whose offsets are ordered,
    non-negative and within a file below 2 GiB returns exactly the file's
    bytes from the record's offset to the next one. *)
Theorem read_record_in_range : forall f t i,
  0 <= i -> i + 1 < len t -> len t < 2 ^ 64 ->
  0 <= nth (Z.to_nat i) t 0 <= nth (Z.to_nat (i + 1)) t 0 ->
  nth (Z.to_nat (i + 1)) t 0 <= fsize f ->
  nth (Z.to_nat (i + 1)) t 0 < 2 ^ 31 ->
  exists r, ReadRecord f t i = Ok r
    /\ len r = nth (Z.to_nat (i + 1)) t 0 - nth (Z.to_nat i) t 0
    /\ forall k, 0 <= k < len r ->
         byte_at r k = fbyte f (nth (Z.to_nat i) t 0 + k).
Proof.
  intros f t i Hi Ht H64 Hlh Hhf H31.
  rewrite read_record_slice by assumption.
  eexists. split; [reflexivity|]. split.
  - rewrite len_read_at. lia.
  - intros k Hk. rewrite len_read_at in Hk. unfold byte_at, read_at.
    rewrite nth_map_seq_0 by lia. f_equal. lia.
Qed.

Lemma read_record_in_range_witness :
  exists r, ReadRecord (source_of (plain_doc_file 3 [97; 98])) [94; 96; 98] 1 = Ok r
    /\ len r = 98 - 96
    /\ forall k, 0 <= k < len r ->
         byte_at r k = fbyte (source_of (plain_doc_file 3 [97; 98])) (96 + k).
Proof.
  exact (read_record_in_range (source_of (plain_doc_file 3 [97; 98])) [94; 96; 98] 1
           ltac:(lia) ltac:(concrete) ltac:(concrete) ltac:(concrete)
           ltac:(concrete) ltac:(concrete)).
Defined.

Lemma to_i16_lt x : to_i16 x < 2 ^ 15.
Proof.
  unfold to_i16. pose proof (Z.mod_pos_bound x (2 ^ 16) ltac:(lia)).
  destruct (Z.geb_spec (x mod 2 ^ 16) (2 ^ 15)); lia.
Qed.

Lemma pdb_open_table : forall f env,
  pdb_open f = Ok env ->
  let t := env_recHeaders env in
  let n := env_numRecords env in
  1 <= n < 2 ^ 15
  /\ length t = (Z.to_nat n + 1)%nat
  /\ nth (Z.to_nat n) t 0 = to_i32 (fsize f)
  /\ (forall i, (i < Z.to_nat n)%nat -> nth i t 0 <= nth (S i) t 0).
Proof.
  intros f env H. unfold pdb_open in H.
  destruct (negb (len (read_at f 0 kPdbHeaderLen) =? kPdbHeaderLen));
    [discriminate|].
  destruct (if list_Z_eqb _ MOBI_TYPE_CREATOR then Some true
            else if list_Z_eqb _ PALMDOC_TYPE_CREATOR then Some false else None)
    as [isM|]; [|discriminate].
  set (n := to_i16 _) in H.
  assert (Hn16 : n < 2 ^ 15) by apply to_i16_lt.
  destruct (Z.ltb_spec n 1) as [Hn|Hn]; [discriminate|].
  destruct (negb (len (read_at f kPdbHeaderLen (u32 (kPdbRecordHeaderLen * n)))
                  =? u32 (kPdbRecordHeaderLen * n))); [discriminate|].
  set (ro := rec_offsets _ n) in H.
  assert (Hro : length ro = Z.to_nat n)
    by (unfold ro, rec_offsets; rewrite length_map, length_seq; reflexivity).
  set (t := ro ++ [to_i32 (fsize f)]) in H.
  destruct (offsets_ok t n) eqn:Hok; [|discriminate].
  injection H as <-. cbn zeta. cbn [env_numRecords env_recHeaders].
  split; [lia|]. split.
  { unfold t. rewrite length_app, Hro. reflexivity. }
  split.
  { unfold t. rewrite app_nth2 by lia. rewrite Hro, Nat.sub_diag. reflexivity. }
  intros i Hi. unfold offsets_ok in Hok. rewrite forallb_forall in Hok.
  assert (Hin : In i (seq 0 (Z.to_nat n))) by (apply in_seq; lia).
  specialize (Hok i Hin).
  destruct (Z.ltb_spec (nth (S i) t 0) (nth i t 0)); [discriminate|lia].
Qed.

Lemma sorted_chain (t : list Z) (n : nat) :
  (forall i, (i < n)%nat -> nth i t 0 <= nth (S i) t 0) ->
  forall i j, (i <= j <= n)%nat -> nth i t 0 <= nth j t 0.
Proof.
  intros Hs i j. induction j as [|j IH]; intros Hij.
  - replace i with 0%nat by lia. lia.
  - destruct (Nat.eq_dec i (S j)) as [->|Hne]; [lia|].
    specialize (Hs j ltac:(lia)). specialize (IH ltac:(lia)). lia.
Qed.

(** Once [pdb_open] has accepted a file below 2 GiB whose first offset is
    not negative, every record [0 .. numRecords - 1] of the table can be
    read: [ReadRecord] returns the bytes between its offset and the next
    one, the last record ending at the file size. *)
Theorem pdb_open_records_readable : forall f env i,
  pdb_open f = Ok env -> 0 <= fsize f < 2 ^ 31 ->
  0 <= nth 0 (env_recHeaders env) 0 ->
  0 <= i < env_numRecords env ->
  exists r, ReadRecord f (env_recHeaders env) i = Ok r
    /\ len r = nth (Z.to_nat (i + 1)) (env_recHeaders env) 0
               - nth (Z.to_nat i) (env_recHeaders env) 0.
Proof.
  intros f env i H Hf H0 Hi.
  destruct (pdb_open_table f env H) as (Hn & Hlen & Hlast & Hs).
  set (t := env_recHeaders env) in *. set (n := env_numRecords env) in *.
  pose proof (sorted_chain t (Z.to_nat n) Hs) as Hc.
  rewrite to_i32_small in Hlast by exact Hf.
  assert (Hi1 : Z.to_nat (i + 1) = S (Z.to_nat i)) by lia.
  assert (Hlo : 0 <= nth (Z.to_nat i) t 0) by (specialize (Hc 0%nat (Z.to_nat i)); lia).
  assert (Hhi : nth (Z.to_nat (i + 1)) t 0 <= fsize f)
    by (rewrite <- Hlast; apply Hc; lia).
  assert (Hstep : nth (Z.to_nat i) t 0 <= nth (Z.to_nat (i + 1)) t 0)
    by (rewrite Hi1; apply Hs; lia).
  rewrite read_record_slice; [| lia | unfold len; lia | unfold len; lia | lia | lia | lia].
  eexists. split; [reflexivity|]. rewrite len_read_at. lia.
Qed.

Lemma pdb_open_records_readable_witness :
  exists env, pdb_open (source_of (plain_doc_file 3 [97; 98])) = Ok env
    /\ exists r, ReadRecord (source_of (plain_doc_file 3 [97; 98]))
                   (env_recHeaders env) 1 = Ok r
       /\ len r = nth 2 (env_recHeaders env) 0 - nth 1 (env_recHeaders env) 0.
Proof.
  destruct (pdb_open (source_of (plain_doc_file 3 [97; 98]))) as [env|e|] eqn:E;
    try (vm_compute in E; discriminate).
  exists env. split; [reflexivity|].
  apply (pdb_open_records_readable _ env 1 E); vm_compute in E; injection E as <-;
    concrete.
Defined.






(** ** Further properties of the Huffman tables *)










(** ** Further properties of header parsing *)



(** ** Further properties of document loading *)

Lemma extra_data_none r : len r < 2 ^ 64 -> ExtraDataSize r (len r) 0 false = Ok 0.
Proof.
  intros H. unfold ExtraDataSize. cbn [Z.to_nat strip_trailers bind andb].
  rewrite Z.sub_diag. reflexivity.
Qed.

Lemma load_record_plain : forall f st i s r,
  compressionType st = COMPRESSION_NONE -> trailersCount st = 0 ->
  multibyte st = false -> len r < 2 ^ 64 ->
  ReadRecord f (recHeaders st) i = Ok r ->
  LoadDocRecordIntoBuffer f st i s = Ok (s ++ r).
Proof.
  intros f st i s r Hc Ht Hm H64 Hr. unfold LoadDocRecordIntoBuffer.
  rewrite Hr. cbn [rr_to bind]. rewrite Ht, Hm, extra_data_none by exact H64.
  cbn [bind]. rewrite Z.sub_0_r, size_t_small by (unfold len in *; lia).
  rewrite Hc, Z.eqb_refl, Z.ltb_irrefl.
  unfold len. rewrite Nat2Z.id, firstn_all. reflexivity.
Qed.

Lemma load_records_plain : forall rs f st i s,
  compressionType st = COMPRESSION_NONE -> trailersCount st = 0 ->
  multibyte st = false ->
  (forall k r, nth_error rs k = Some r ->
     ReadRecord f (recHeaders st) (i + Z.of_nat k) = Ok r /\ len r < 2 ^ 64) ->
  load_records (length rs) f st i s = Ok (s ++ List.concat rs).
Proof.
  induction rs as [|r rs IH]; intros f st i s Hc Ht Hm Hr.
  - cbn. rewrite app_nil_r. reflexivity.
  - cbn [length load_records].
    destruct (Hr 0%nat r eq_refl) as [Hr0 H64]. rewrite Z.add_0_r in Hr0.
    rewrite (load_record_plain f st i s r) by assumption. cbn [bind].
    rewrite IH; [cbn [List.concat]; rewrite app_assoc; reflexivity | auto | auto | auto |].
    intros k r' Hk. destruct (Hr (S k) r' Hk) as [Hk' H64'].
    split; [|exact H64']. rewrite <- Hk'. f_equal. lia.
Qed.

(** An uncompressed document without trailing entries loads as the
    concatenation of its text records [1 .. docRecCount], in order,
    appended to what [doc] already holds. *)
Theorem load_document_plain : forall f st rs,
  compressionType st = COMPRESSION_NONE -> trailersCount st = 0 ->
  multibyte st = false ->
  docRecCount st = Z.of_nat (length rs) -> Z.of_nat (length rs) < 2 ^ 64 ->
  (forall k r, nth_error rs k = Some r ->
     ReadRecord f (recHeaders st) (Z.of_nat k + 1) = Ok r /\ len r < 2 ^ 64) ->
  LoadDocument f st = Ok (with_doc st (doc st ++ List.concat rs)).
Proof.
  intros f st rs Hc Ht Hm Hn H64 Hr. unfold LoadDocument.
  rewrite Hn, size_t_small, Nat2Z.id by lia.
  rewrite load_records_plain by
    (auto; intros k r Hk; rewrite Z.add_comm; exact (Hr k r Hk)).
  reflexivity.
Qed.

Lemma load_document_plain_witness :
  exists st, ParseHeader (source_of (plain_doc_file 2 [97; 98])) = Ok st
    /\ LoadDocument (source_of (plain_doc_file 2 [97; 98])) st
       = Ok (with_doc st (doc st ++ [97; 98])).
Proof.
  destruct (ParseHeader (source_of (plain_doc_file 2 [97; 98]))) as [st| |] eqn:E;
    try (vm_compute in E; discriminate).
  exists st. split; [reflexivity|].
  vm_compute in E. injection E as Est.
  apply (load_document_plain (source_of (plain_doc_file 2 [97; 98])) st [[97; 98]]).
  1-5: (try rewrite <- Est); vm_compute; reflexivity.
  intros k r Hk. destruct k as [|[|k]]; try discriminate.
  injection Hk as <-. rewrite <- Est. concrete.
Defined.






(** A record whose table offset is negative (an [int32_t] offset of 2 GiB
    or more in the file) is never read: [SetFilePointer] receives a
    negative position and [ReadRecord] fails, provided the record's size
    computation does not overflow. *)
Theorem read_record_negative_offset : forall f t i,
  0 <= i -> i + 1 < len t -> len t < 2 ^ 64 ->
  - 2 ^ 31 <= nth (Z.to_nat i) t 0 < 0 ->
  - 2 ^ 31 <= nth (Z.to_nat (i + 1)) t 0 - nth (Z.to_nat i) t 0 < 2 ^ 31 ->
  ReadRecord f t i = Err RrSeek.
Proof.
  intros f t i Hi Ht H64 Hlo Hd.
  set (lo := nth (Z.to_nat i) t 0) in *.
  set (hi := nth (Z.to_nat (i + 1)) t 0) in *.
  assert (Hg : forall j, 0 <= j < len t -> tbl_get t j = Ok (nth (Z.to_nat j) t 0)).
  { intros j Hj. unfold tbl_get.
    replace ((0 <=? j) && (j <? len t)) with true; [reflexivity|].
    symmetry. apply andb_true_iff. split; [apply Z.leb_le | apply Z.ltb_lt]; lia. }
  unfold ReadRecord, GetRecordSize.
  rewrite (Hg i) by lia. cbn [bind].
  rewrite (size_t_small (i + 1)) by lia. rewrite (Hg (i + 1)) by lia.
  cbn [bind]. fold lo hi.
  replace ((hi - lo <? - 2 ^ 31) || (2 ^ 31 - 1 <? hi - lo)) with false
    by (symmetry; apply orb_false_iff; split; apply Z.ltb_ge; lia).
  cbn [bind].
  assert (Hs : size_t lo = lo + 2 ^ 64).
  { unfold size_t. rewrite <- (Z.mod_add lo 1 (2 ^ 64)) by lia.
    apply Z.mod_small. lia. }
  assert (Hi32 : to_i32 (size_t lo) = lo).
  { rewrite Hs. unfold to_i32.
    replace (lo + 2 ^ 64) with ((lo + 2 ^ 32) + (2 ^ 32 - 1) * 2 ^ 32) by lia.
    rewrite Z.mod_add by lia. rewrite Z.mod_small by lia.
    destruct (Z.geb_spec (lo + 2 ^ 32) (2 ^ 31)); lia. }
  rewrite Hi32. replace (lo <? 0) with true by (symmetry; apply Z.ltb_lt; lia).
  reflexivity.
Qed.

Lemma read_record_negative_offset_witness :
  ReadRecord (source_of []) [- 2 ^ 31; - 2 ^ 31 + 5] 0 = Err RrSeek.
Proof.
  apply read_record_negative_offset; [lia | concrete | concrete | concrete | concrete].
Defined.

Lemma lxor_128_low x : 0 <= x < 128 -> Z.lxor x 128 = x + 128.
Proof.
  intros Hx. rewrite <- Z.add_nocarry_lxor; [reflexivity|].
  change 128 with (2 ^ 7). rewrite land_pow2 by lia.
  assert (Hq : x / 2 ^ 7 = 0) by (apply Z.div_small; change (2 ^ 7) with 128; lia).
  pose proof (Z.testbit_spec' x 7 ltac:(lia)) as Ht. rewrite Hq in Ht.
  destruct (Z.testbit x 7); [discriminate Ht | reflexivity].
Qed.

Lemma space_pairs_decode : forall xs fuel dst dstLen,
  Forall (fun x => 64 <= x < 128) xs -> (length xs <= fuel)%nat ->
  len dst + 2 * len xs <= dstLen ->
  pd_loop fuel (map (fun x => Z.lxor x 128) xs) dst dstLen
    = Ok (dst ++ flat_map (fun x => [32; x]) xs).
Proof.
  induction xs as [|x xs IH]; intros fuel dst dstLen Hx Hf Hroom.
  - rewrite app_nil_r. destruct fuel; reflexivity.
  - inversion Hx as [|? ? Hx1 Hxs]; subst.
    destruct fuel as [|fuel]; [simpl in Hf; lia|].
    cbn [map pd_loop flat_map].
    rewrite lxor_128_low by lia.
    unfold len at 2 in Hroom. cbn [length] in Hroom.
    replace (dstLen - len dst =? 0) with false
      by (symmetry; apply Z.eqb_neq; lia).
    replace ((1 <=? x + 128) && (x + 128 <=? 8)) with false
      by (symmetry; apply andb_false_iff; right; apply Z.leb_gt; lia).
    replace (x + 128 <? 128) with false by (symmetry; apply Z.ltb_ge; lia).
    replace (192 <=? x + 128) with true by (symmetry; apply Z.leb_le; lia).
    replace (dstLen - len dst <? 2) with false by (symmetry; apply Z.ltb_ge; lia).
    rewrite <- lxor_128_low by lia.
    rewrite Z.lxor_assoc, Z.lxor_nilpotent, Z.lxor_0_r.
    rewrite IH; [| exact Hxs | simpl in Hf; lia | rewrite len_app; unfold len in *; cbn [length app]; lia].
    rewrite <- app_assoc. reflexivity.
Qed.

(** The PalmDoc space pairs (lines 168-171): each byte [0xC0..0xFF]
    decodes to a space followed by the byte with its top bit cleared, so
    text made of characters [0x40..0x7F], each sent as [c ^ 0x80], decodes
    to those characters each preceded by a space when the output fits. *)
Theorem palmdoc_space_pairs : forall xs dstLen,
  Forall (fun x => 64 <= x < 128) xs -> 2 * len xs <= dstLen ->
  PalmdocUncompress (map (fun x => Z.lxor x 128) xs) dstLen
    = Ok (flat_map (fun x => [32; x]) xs).
Proof.
  intros xs dstLen Hx Hroom. unfold PalmdocUncompress.
  rewrite length_map.
  rewrite space_pairs_decode; [reflexivity | exact Hx | lia | unfold len at 1; cbn [length]; lia].
Qed.

Lemma palmdoc_space_pairs_witness :
  PalmdocUncompress [200; 225] 4 = Ok [32; 72; 32; 97].
Proof.
  exact (palmdoc_space_pairs [72; 97] 4 ltac:(repeat constructor; lia) ltac:(concrete)).
Defined.



Lemma load_records_each : forall rs f st i s,
  (forall k r s0, nth_error rs k = Some r ->
     LoadDocRecordIntoBuffer f st (i + Z.of_nat k) s0 = Ok (s0 ++ r)) ->
  load_records (length rs) f st i s = Ok (s ++ List.concat rs).
Proof.
  induction rs as [|r rs IH]; intros f st i s Hr.
  - cbn. rewrite app_nil_r. reflexivity.
  - cbn [length load_records].
    pose proof (Hr 0%nat r s eq_refl) as H0. rewrite Z.add_0_r in H0.
    rewrite H0. cbn [bind].
    rewrite IH; [cbn [List.concat]; rewrite app_assoc; reflexivity|].
    intros k r' s0 Hk. rewrite <- (Hr (S k) r' s0 Hk). f_equal. lia.
Qed.

Lemma load_record_palm_raw : forall f st i s chunks,
  compressionType st = COMPRESSION_PALM -> trailersCount st = 0 ->
  multibyte st = false ->
  ReadRecord f (recHeaders st) i = Ok (raw_encode chunks) ->
  forallb chunk_ok chunks = true -> len (List.concat chunks) <= kPalmBufLen ->
  len (raw_encode chunks) < 2 ^ 64 ->
  LoadDocRecordIntoBuffer f st i s = Ok (s ++ List.concat chunks).
Proof.
  intros f st i s chunks Hc Ht Hm Hr Hok Hlen H64. unfold LoadDocRecordIntoBuffer.
  rewrite Hr. cbn [rr_to bind]. rewrite Ht, Hm, extra_data_none by exact H64.
  cbn [bind]. rewrite Z.sub_0_r, size_t_small by (unfold len in *; lia).
  rewrite Hc. cbn [Z.eqb COMPRESSION_PALM COMPRESSION_NONE Pos.eqb].
  rewrite Z.ltb_irrefl. unfold len at 1. rewrite Nat2Z.id, firstn_all.
  unfold PalmdocUncompress.
  rewrite raw_encode_decodes; [reflexivity | exact Hok | lia | unfold len at 1; cbn [length]; lia].
Qed.

(** End to end for PalmDoc compression: a document without trailing
    entries whose text records [1 .. docRecCount] are each made of raw
    runs decoding to at most 6000 bytes loads as the concatenation of the
    records' decoded text, in record order. *)
Theorem load_document_palmdoc_raw : forall f st docs,
  compressionType st = COMPRESSION_PALM -> trailersCount st = 0 ->
  multibyte st = false ->
  docRecCount st = Z.of_nat (length docs) -> Z.of_nat (length docs) < 2 ^ 64 ->
  (forall k chunks, nth_error docs k = Some chunks ->
     ReadRecord f (recHeaders st) (Z.of_nat k + 1) = Ok (raw_encode chunks)
     /\ forallb chunk_ok chunks = true
     /\ len (List.concat chunks) <= kPalmBufLen
     /\ len (raw_encode chunks) < 2 ^ 64) ->
  LoadDocument f st
    = Ok (with_doc st (doc st ++ List.concat (map (@List.concat Z) docs))).
Proof.
  intros f st docs Hc Ht Hm Hn H64 Hd. unfold LoadDocument.
  rewrite Hn, size_t_small, Nat2Z.id by lia.
  rewrite <- (length_map (@List.concat Z) docs).
  rewrite load_records_each; [reflexivity|].
  intros k r s0 Hk. rewrite nth_error_map in Hk.
  destruct (nth_error docs k) as [chunks|] eqn:Ek; [|discriminate].
  injection Hk as <-. destruct (Hd k chunks Ek) as (Hr & Hok & Hl & H64').
  rewrite Z.add_comm in Hr.
  apply load_record_palm_raw; assumption.
Qed.

Lemma load_document_palmdoc_raw_witness :
  exists st, ParseHeader (source_of (palm_raw_doc_file [[72; 105; 0; 200]; [33]])) = Ok st
    /\ LoadDocument (source_of (palm_raw_doc_file [[72; 105; 0; 200]; [33]])) st
       = Ok (with_doc st (doc st ++ [72; 105; 0; 200; 33])).
Proof.
  destruct (ParseHeader (source_of (palm_raw_doc_file [[72; 105; 0; 200]; [33]])))
    as [st| |] eqn:E; try (vm_compute in E; discriminate).
  exists st. split; [reflexivity|].
  vm_compute in E. injection E as Est.
  apply (load_document_palmdoc_raw
           (source_of (palm_raw_doc_file [[72; 105; 0; 200]; [33]])) st
           [[[72; 105; 0; 200]; [33]]]).
  1-5: (try rewrite <- Est); vm_compute; reflexivity.
  intros k chunks Hk. destruct k as [|[|k]]; try discriminate.
  injection Hk as <-. rewrite <- Est. concrete.
Defined.
